(** * Aria: a define-by-run reverse-mode automatic differentiation engine

    A shallow embedding of the engine of [Aria/core] (Variable, Function,
    Config, Utils, Math) and of the shape operations of
    [Aria/functions/Tensor.py] and [Aria/functions/utils/Transform.py].

    Python objects live in an explicit store; a [Variable] or a [Function]
    is denoted by its address, so that aliasing (the same Variable in two
    input slots, one gradient object shared by two Variables) is kept.
    Exceptions are outcomes of a state-and-error monad whose state survives
    the raise, as Python's does. *)

From Stdlib Require Import ZArith Lia String.
From stdpp Require Import base decidable option list.

Local Open Scope Z_scope.
Local Open Scope nat_scope.

(** ** Python exceptions and results of pure (numpy) operations *)

Inductive exn :=
  | AttributeError
  | TypeError
  | ValueError
  | IndexError
  | AxisError.

Inductive res (A : Type) :=
  | Ok (a : A)
  | Err (e : exn).
Arguments Ok {A} a.
Arguments Err {A} e.

Definition res_bind {A B} (f : A -> res B) (m : res A) : res B :=
  match m with
  | Ok a => f a
  | Err e => Err e
  end.

#[global] Instance res_ret : MRet res := fun _ a => Ok a.
#[global] Instance res_mbind : MBind res := fun _ _ f m => res_bind f m.

(** ** The numeric backend

    [numpy.ndarray] restricted to what the engine uses: a shape and the
    elements in row-major order.  Elements are integers (an integer
    ndarray, overflow not modelled). *)

Module Numpy.

Record ndarray := NdArray { nd_shape : list nat; nd_data : list Z }.

#[global] Instance ndarray_eq_dec : EqDecision ndarray.
Proof. solve_decision. Defined.

Definition size_of (s : list nat) : nat := foldr Nat.mul 1 s.

(** Every numpy array has as many elements as its shape says. *)
Definition wf_ndarray (a : ndarray) : Prop :=
  length (nd_data a) = size_of (nd_shape a).

Definition ndim (a : ndarray) : nat := length (nd_shape a).

Definition full (s : list nat) (z : Z) : ndarray :=
  NdArray s (replicate (size_of s) z).

(** [np.ones_like], [np.zeros], [np.array(scalar)] *)
Definition ones_like (a : ndarray) : ndarray := full (nd_shape a) 1%Z.
Definition zeros (s : list nat) : ndarray := full s 0%Z.
Definition array (z : Z) : ndarray := NdArray [] [z].

Definition nd_map (f : Z -> Z) (a : ndarray) : ndarray :=
  NdArray (nd_shape a) (f <$> nd_data a).

(** *** Broadcasting *)

(** the shape with ones prepended up to [n] dimensions *)
Definition pad_shape (n : nat) (s : list nat) : list nat :=
  replicate (n - length s) 1 ++ s.

Definition broadcast_dim (n m : nat) : option nat :=
  if decide (n = m) then Some n
  else if decide (n = 1) then Some m
  else if decide (m = 1) then Some n
  else None.

Fixpoint broadcast_dims (s0 s1 : list nat) : option (list nat) :=
  match s0, s1 with
  | n :: s0', m :: s1' =>
      match broadcast_dim n m, broadcast_dims s0' s1' with
      | Some d, Some r => Some (d :: r)
      | _, _ => None
      end
  | _, _ => Some []
  end.

(** [np.broadcast_shapes]: align on the right, then dimension-wise *)
Definition broadcast_shapes (s0 s1 : list nat) : option (list nat) :=
  let n := length s0 `max` length s1 in
  broadcast_dims (pad_shape n s0) (pad_shape n s1).

(** [n] consecutive chunks of [k] elements *)
Fixpoint chunks (n k : nat) (d : list Z) : list (list Z) :=
  match n with
  | 0 => []
  | S n' => take k d :: chunks n' k (drop k d)
  end.

(** the elements of an array of shape [s] repeated to shape [t]
    (same number of dimensions, every dimension equal or 1 in [s]) *)
Fixpoint bcast (s t : list nat) (d : list Z) : list Z :=
  match s, t with
  | n :: s', m :: t' =>
      let cs := bcast s' t' <$> chunks n (size_of s') d in
      if decide (n = m) then concat cs else concat (replicate m (concat cs))
  | _, _ => d
  end.

Definition broadcastable_to (s t : list nat) : bool :=
  bool_decide (length s <= length t /\
               Forall2 (fun n m => n = m \/ n = 1) (pad_shape (length t) s) t).

(** [np.broadcast_to(x, shape)] *)
Definition broadcast_to (x : ndarray) (t : list nat) : res ndarray :=
  if broadcastable_to (nd_shape x) t
  then Ok (NdArray t (bcast (pad_shape (length t) (nd_shape x)) t (nd_data x)))
  else Err ValueError.

(** an elementwise binary operator, operands broadcast against each other *)
Definition nd_binop (f : Z -> Z -> Z) (a b : ndarray) : res ndarray :=
  match broadcast_shapes (nd_shape a) (nd_shape b) with
  | Some s =>
      let n := length s in
      Ok (NdArray s (zip_with f
                       (bcast (pad_shape n (nd_shape a)) s (nd_data a))
                       (bcast (pad_shape n (nd_shape b)) s (nd_data b))))
  | None => Err ValueError
  end.

Definition nd_add := nd_binop Z.add.
Definition nd_sub := nd_binop Z.sub.
Definition nd_mul := nd_binop Z.mul.
Definition nd_neg := nd_map Z.opp.

(** [x ** c] for an integer array: a negative exponent is refused *)
Definition nd_pow (a : ndarray) (c : Z) : res ndarray :=
  if (c <? 0)%Z then Err ValueError else Ok (nd_map (fun z => (z ^ c)%Z) a).

(** *** Reductions *)

Definition keepdims_shape (s : list nat) (mask : list bool) : list nat :=
  zip_with (fun (n : nat) (b : bool) => if b then 1 else n) s mask.

(** the elementwise sum of a list of rows of length [k] *)
Definition sum_rows (k : nat) (rows : list (list Z)) : list Z :=
  foldr (zip_with Z.add) (replicate k 0%Z) rows.

(** sum over the axes selected by [mask], the summed axes kept with size 1 *)
Fixpoint sum_axes (s : list nat) (mask : list bool) (d : list Z) : list Z :=
  match s, mask with
  | n :: s', b :: mask' =>
      let cs := sum_axes s' mask' <$> chunks n (size_of s') d in
      if b then sum_rows (size_of (keepdims_shape s' mask')) cs else concat cs
  | _, _ => d
  end.

(** numpy accepts an axis [ax] of an [n]-dimensional array when
    [-n <= ax < n] and counts a negative one from the end *)
Definition normalize_axis (n : nat) (ax : Z) : res nat :=
  if ((- Z.of_nat n <=? ax)%Z && (ax <? Z.of_nat n)%Z)%bool
  then Ok (Z.to_nat (ax mod Z.of_nat n))
  else Err AxisError.

Fixpoint normalize_axes (n : nat) (axes : list Z) : res (list nat) :=
  match axes with
  | [] => Ok []
  | ax :: axes' =>
      match normalize_axis n ax, normalize_axes n axes' with
      | Ok a, Ok r => if bool_decide (a ∈ r) then Err ValueError else Ok (a :: r)
      | Err e, _ => Err e
      | _, Err e => Err e
      end
  end.

Definition axes_mask (n : nat) (axes : list nat) : list bool :=
  (fun i => bool_decide (i ∈ axes)) <$> seq 0 n.

(** [x.sum(axes, keepdims=True)] for a tuple of axes *)
Definition sum_keepdims (axes : list Z) (x : ndarray) : res ndarray :=
  match normalize_axes (ndim x) axes with
  | Ok l =>
      let mask := axes_mask (ndim x) l in
      Ok (NdArray (keepdims_shape (nd_shape x) mask)
                  (sum_axes (nd_shape x) mask (nd_data x)))
  | Err e => Err e
  end.

(** [y.squeeze(axes)]: the selected axes must have size 1 and are removed *)
Definition squeeze (axes : list Z) (y : ndarray) : res ndarray :=
  match normalize_axes (ndim y) axes with
  | Ok l =>
      let sel := zip (seq 0 (ndim y)) (nd_shape y) in
      if forallb (fun p => negb (bool_decide (p.1 ∈ l)) || bool_decide (p.2 = 1)) sel
      then Ok (NdArray
                 ((filter (fun p => p.1 ∉ l) sel).*2)
                 (nd_data y))
      else Err ValueError
  | Err e => Err e
  end.

(** [range(n)] for a Python integer [n] *)
Definition range (n : Z) : list Z := Z.of_nat <$> seq 0 (Z.to_nat n).

(** [Aria/functions/utils/Transform.py], [sum_to] *)
Definition sum_to (x : ndarray) (shape : list nat) : res ndarray :=
  let ndim_ := length shape in
  let lead := (Z.of_nat (ndim x) - Z.of_nat ndim_)%Z in
  let lead_axis := range lead in
  let axis :=
    omap (fun p : nat * nat =>
            if decide (p.2 = 1) then Some (Z.of_nat p.1 + lead)%Z else None)
         (zip (seq 0 ndim_) shape) in
  y ← sum_keepdims (lead_axis ++ axis) x;
  if (0 <? lead)%Z then squeeze lead_axis y else Ok y.

(** *** Indexing along the first axis

    The index expressions of [x[slices]]: an integer, or a list of integers
    (integer-array indexing, where an index may occur more than once). *)

Inductive index :=
  | IdxInt (i : Z)
  | IdxList (l : list Z).

#[global] Instance index_eq_dec : EqDecision index.
Proof. solve_decision. Defined.

Definition normalize_index (n : nat) (i : Z) : res nat :=
  if ((- Z.of_nat n <=? i)%Z && (i <? Z.of_nat n)%Z)%bool
  then Ok (Z.to_nat (i mod Z.of_nat n))
  else Err IndexError.

Fixpoint normalize_indices (n : nat) (l : list Z) : res (list nat) :=
  match l with
  | [] => Ok []
  | i :: l' =>
      match normalize_index n i, normalize_indices n l' with
      | Ok j, Ok r => Ok (j :: r)
      | Err e, _ => Err e
      | _, Err e => Err e
      end
  end.

(** the [j]-th block of [k] elements *)
Definition row (k : nat) (d : list Z) (j : nat) : list Z :=
  take k (drop (j * k) d).

(** [x[slices]] *)
Definition getitem (x : ndarray) (slices : index) : res ndarray :=
  match nd_shape x with
  | [] => Err IndexError
  | n :: s' =>
      let k := size_of s' in
      match slices with
      | IdxInt i =>
          j ← normalize_index n i;
          Ok (NdArray s' (row k (nd_data x) j))
      | IdxList l =>
          js ← normalize_indices n l;
          Ok (NdArray (length l :: s') (concat (row k (nd_data x) <$> js)))
      end
  end.

(** add [r] onto the [j]-th block of [k] elements *)
Definition add_row (k : nat) (d : list Z) (j : nat) (r : list Z) : list Z :=
  take (j * k) d ++ zip_with Z.add (row k d j) r ++ drop (j * k + k) d.

(** [np.add.at(gx, slices, gy)]: unbuffered in-place addition, the result
    being the new contents of [gx]; a repeated index is added each time *)
Definition add_at (gx : ndarray) (slices : index) (gy : ndarray) : res ndarray :=
  match nd_shape gx with
  | [] => Err IndexError
  | n :: s' =>
      let k := size_of s' in
      match slices with
      | IdxInt i =>
          j ← normalize_index n i;
          b ← broadcast_to gy s';
          Ok (NdArray (n :: s') (add_row k (nd_data gx) j (nd_data b)))
      | IdxList l =>
          js ← normalize_indices n l;
          b ← broadcast_to gy (length l :: s');
          Ok (NdArray (n :: s')
                (foldl (fun d (p : nat * list Z) => add_row k d p.1 p.2)
                       (nd_data gx)
                       (zip js (chunks (length l) k (nd_data b)))))
      end
  end.

End Numpy.
Import Numpy.

(** ** Python objects and the store *)

Abbreviation addr := nat (only parsing).

(** The operations of [core/Math.py], [core/Utils.py] and
    [functions/Tensor.py] that the engine is exercised with, each with the
    parameters its constructor stores. *)
Inductive fkind :=
  | Add
  | Sub
  | Mul
  | Neg
  | Pow (c : Z)
  | Square
  | GetItem (slices : index)
  | GetItemGrad (slices : index) (in_shape : list nat)
  | SumTo (shape : list nat)
  | BroadcastTo (shape : list nat).

(** [core/Variable.py], class [Variable] ([Variable] is a reserved word of
    Rocq): the attributes the engine reads and writes ([name] is never read
    by it).  [grad] and [creator] hold [None] or a
    reference. *)
Record VariableObj := mkVariable {
  data : option ndarray;
  grad : option addr;
  creator : option addr;
  generation : nat
}.

(** [core/Function.py], class [Function]: an instance and the attributes that [forward] and
    [__call__] set on it; an attribute not yet set is [None] here.
    [outputs] holds weak references, written as addresses: every Variable of
    the store stays alive. *)
Record FunctionObj := mkFunction {
  kind : fkind;
  x0_shape : option (list nat);
  x1_shape : option (list nat);
  x_shape : option (list nat);
  f_generation : option nat;
  inputs : option (list addr);
  outputs : option (list addr)
}.

(** [core/Config.py] *)
Record Config := mkConfig {
  enable_backprop : bool;
  train : bool
}.

Record store := mkStore {
  vars : list VariableObj;
  funs : list FunctionObj;
  config : Config
}.

Definition empty_store : store :=
  mkStore [] [] (mkConfig true true).

(** ** The state-and-exception monad *)

Inductive outcome (A : Type) :=
  | Val (a : A)
  | Raise (e : exn)
  | OutOfFuel.
Arguments Val {A} a.
Arguments Raise {A} e.
Arguments OutOfFuel {A}.

Definition M (A : Type) : Type := store -> outcome A * store.

Definition ret {A} (a : A) : M A := fun s => (Val a, s).

Definition bind {A B} (m : M A) (k : A -> M B) : M B :=
  fun s =>
    match m s with
    | (Val a, s') => k a s'
    | (Raise e, s') => (Raise e, s')
    | (OutOfFuel, s') => (OutOfFuel, s')
    end.

Definition raise {A} (e : exn) : M A := fun s => (Raise e, s).

Definition lift {A} (r : res A) : M A :=
  match r with
  | Ok a => ret a
  | Err e => raise e
  end.

Notation "'do' x <- m ; k" := (bind m (fun x => k))
  (at level 10, x name, m at level 100, k at level 200,
   format "'[v' 'do'  x  <-  m ; '/' k ']'").
Notation "'exec' m ; k" := (bind m (fun _ => k))
  (at level 10, m at level 100, k at level 200,
   format "'[v' 'exec'  m ; '/' k ']'").

(** a loop over a Python list, in order *)
Fixpoint for_each {A} (l : list A) (body : A -> M unit) : M unit :=
  match l with
  | [] => ret tt
  | x :: l' => exec body x; for_each l' body
  end.

Fixpoint map_M {A B} (f : A -> M B) (l : list A) : M (list B) :=
  match l with
  | [] => ret []
  | x :: l' => do y <- f x; do ys <- map_M f l'; ret (y :: ys)
  end.

(** *** Access to the store.  A reference always denotes an object of the
    store; a dangling address has no Python counterpart and reads as
    [AttributeError]. *)

Definition get_var (v : addr) : M VariableObj :=
  fun s => match vars s !! v with
           | Some x => (Val x, s)
           | None => (Raise AttributeError, s)
           end.

Definition get_fun (f : addr) : M FunctionObj :=
  fun s => match funs s !! f with
           | Some x => (Val x, s)
           | None => (Raise AttributeError, s)
           end.

(** an assignment to attributes of an object: [upd] gives the object with
    the new attributes *)
Definition update_var (v : addr) (upd : VariableObj -> VariableObj) : M unit :=
  fun s => match vars s !! v with
           | Some x => (Val tt, mkStore (<[v := upd x]> (vars s)) (funs s) (config s))
           | None => (Raise AttributeError, s)
           end.

Definition update_fun (f : addr) (upd : FunctionObj -> FunctionObj) : M unit :=
  fun s => match funs s !! f with
           | Some x => (Val tt, mkStore (vars s) (<[f := upd x]> (funs s)) (config s))
           | None => (Raise AttributeError, s)
           end.

Definition alloc_var (x : VariableObj) : M addr :=
  fun s => (Val (length (vars s)), mkStore (vars s ++ [x]) (funs s) (config s)).

Definition alloc_fun (x : FunctionObj) : M addr :=
  fun s => (Val (length (funs s)), mkStore (vars s) (funs s ++ [x]) (config s)).

Definition get_config : M Config := fun s => (Val (config s), s).

Definition set_config (c : Config) : M unit :=
  fun s => (Val tt, mkStore (vars s) (funs s) c).

(** reading an attribute that may not have been set *)
Definition attr {A} (o : option A) : M A :=
  match o with
  | Some a => ret a
  | None => raise AttributeError
  end.

(** ** core/Config.py *)

(** [getattr(Config, name)] *)
Definition getattr_Config (name : string) : M bool :=
  do c <- get_config;
  if String.eqb name "enable_backprop" then ret (enable_backprop c)
  else if String.eqb name "train" then ret (train c)
  else raise AttributeError.

(** [setattr(Config, name, value)], for the two attributes of the class *)
Definition setattr_Config (name : string) (value : bool) : M unit :=
  do c <- get_config;
  if String.eqb name "enable_backprop" then set_config (mkConfig value (train c))
  else if String.eqb name "train" then set_config (mkConfig (enable_backprop c) value)
  else ret tt.

(** [try: body finally: handler] *)
Definition try_finally {A} (body : M A) (handler : M unit) : M A :=
  fun s =>
    match body s with
    | (Val a, s') =>
        match handler s' with
        | (Val _, s'') => (Val a, s'')
        | (Raise e, s'') => (Raise e, s'')
        | (OutOfFuel, s'') => (OutOfFuel, s'')
        end
    | (Raise e, s') =>
        match handler s' with
        | (Val _, s'') => (Raise e, s'')
        | (Raise e', s'') => (Raise e', s'')
        | (OutOfFuel, s'') => (OutOfFuel, s'')
        end
    | (OutOfFuel, s') => (OutOfFuel, s')
    end.

(** [with using_config(name, value): body] *)
Definition using_config {A} (name : string) (value : bool) (body : M A) : M A :=
  do prev_value <- getattr_Config name;
  exec setattr_Config name value;
  try_finally body (setattr_Config name prev_value).

(** [with no_grad(): body] and [with test_mode(): body] *)
Definition no_grad {A} (body : M A) : M A :=
  using_config "enable_backprop" false body.

Definition test_mode {A} (body : M A) : M A :=
  using_config "train" false body.

Definition out_of_fuel {A} : M A := fun s => (OutOfFuel, s).

Fixpoint fold_M {A S} (body : S -> A -> M S) (l : list A) (st : S) : M S :=
  match l with
  | [] => ret st
  | x :: l' => do st' <- body st x; fold_M body l' st'
  end.

(** ** Python values handed to the operations *)

Inductive pyval :=
  | PNone
  | PInt (z : Z)
  | PArr (a : ndarray)
  | PVar (v : addr).

(** what a reference attribute holds, as a value *)
Definition ref (o : option addr) : pyval :=
  match o with
  | Some v => PVar v
  | None => PNone
  end.

(** ** core/Variable.py *)

(** [Variable(data)] *)
Definition new_Variable (d : pyval) : M addr :=
  match d with
  | PNone => alloc_var (mkVariable None None None 0)
  | PArr a => alloc_var (mkVariable (Some a) None None 0)
  | _ => raise TypeError
  end.

Definition set_grad (g : option addr) (x : VariableObj) : VariableObj :=
  mkVariable (data x) g (creator x) (generation x).

Definition set_creator_attr (func : addr) (x : VariableObj) : VariableObj :=
  mkVariable (data x) (grad x) (Some func) (generation x).

Definition set_generation (g : nat) (x : VariableObj) : VariableObj :=
  mkVariable (data x) (grad x) (creator x) g.

Definition set_no_creator (x : VariableObj) : VariableObj :=
  mkVariable (data x) (grad x) None (generation x).

(** [Variable.set_creator] *)
Definition set_creator (self func : addr) : M unit :=
  exec update_var self (set_creator_attr func);
  do f <- get_fun func;
  do g <- attr (f_generation f);
  update_var self (set_generation (g + 1)).


(** [Variable.unchain] *)
Definition unchain (self : addr) : M unit :=
  update_var self set_no_creator.

(** the [shape] property of a Variable, the [shape] attribute of an array *)
Definition shape_of (x : pyval) : M (list nat) :=
  match x with
  | PVar v => do xv <- get_var v; do a <- attr (data xv); ret (nd_shape a)
  | PArr a => ret (nd_shape a)
  | _ => raise AttributeError
  end.

(** ** core/Utils.py *)

(** [as_array]: [np.isscalar] holds of a Python number *)
Definition as_array (x : pyval) : pyval :=
  match x with
  | PInt z => PArr (array z)
  | _ => x
  end.

Definition as_variable (obj : pyval) : M addr :=
  match obj with
  | PVar v => ret v
  | _ => new_Variable obj
  end.

(** ** The forward rules.  [None] where an array is expected: [.shape]
    raises AttributeError, an arithmetic operator or a subscript raises
    TypeError. *)

Definition shape_attr (x : option ndarray) : M (list nat) :=
  do a <- attr x; ret (nd_shape a).

Definition operand (x : option ndarray) : M ndarray :=
  match x with
  | Some a => ret a
  | None => raise TypeError
  end.

Definition set_x0_x1_shape (s0 s1 : list nat) (f : FunctionObj) : FunctionObj :=
  mkFunction (kind f) (Some s0) (Some s1) (x_shape f)
             (f_generation f) (inputs f) (outputs f).

Definition set_x_shape (s : list nat) (f : FunctionObj) : FunctionObj :=
  mkFunction (kind f) (x0_shape f) (x1_shape f) (Some s)
             (f_generation f) (inputs f) (outputs f).

Definition set_f_generation (g : nat) (f : FunctionObj) : FunctionObj :=
  mkFunction (kind f) (x0_shape f) (x1_shape f) (x_shape f)
             (Some g) (inputs f) (outputs f).

Definition set_inputs_outputs (ins outs : list addr) (f : FunctionObj)
  : FunctionObj :=
  mkFunction (kind f) (x0_shape f) (x1_shape f) (x_shape f)
             (f_generation f) (Some ins) (Some outs).

(** the elementwise operators of two operands record both shapes first *)
Definition forward2 (op : ndarray -> ndarray -> res ndarray)
    (self : addr) (x0 x1 : option ndarray) : M ndarray :=
  do s0 <- shape_attr x0;
  do s1 <- shape_attr x1;
  exec update_fun self (set_x0_x1_shape s0 s1);
  do a0 <- operand x0;
  do a1 <- operand x1;
  lift (op a0 a1).

Definition forward (self : addr) (xs : list (option ndarray)) : M ndarray :=
  do f <- get_fun self;
  match kind f, xs with
  | Add, [x0; x1] => forward2 nd_add self x0 x1
  | Sub, [x0; x1] => forward2 nd_sub self x0 x1
  | Mul, [x0; x1] => forward2 nd_mul self x0 x1
  | Neg, [x] => do a <- operand x; ret (nd_neg a)
  | Pow c, [x] => do a <- operand x; lift (nd_pow a c)
  | Square, [x] => do a <- operand x; lift (nd_pow a 2)
  | GetItem slices, [x] => do a <- operand x; lift (getitem a slices)
  | GetItemGrad slices in_shape, [gy] =>
      do a <- operand gy; lift (add_at (zeros in_shape) slices a)
  | SumTo shape, [x] =>
      do s <- shape_attr x;
      exec update_fun self (set_x_shape s);
      do a <- operand x; lift (Numpy.sum_to a shape)
  | BroadcastTo shape, [x] =>
      do s <- shape_attr x;
      exec update_fun self (set_x_shape s);
      do a <- operand x; lift (Numpy.broadcast_to a shape)
  | _, _ => raise TypeError
  end.

(** ** core/Function.py *)

(** Python's [max] of a list *)
Definition py_max (l : list nat) : M nat :=
  match l with
  | [] => raise ValueError
  | n :: l' => ret (foldl Nat.max n l')
  end.

(** [Function.__call__].  Every forward rule above returns one array, which
    [__call__] wraps into the tuple [ys]; the call returns [outputs[0]]. *)
Definition Function_call (self : addr) (args : list pyval) : M addr :=
  do inputs_ <- map_M as_variable args;
  do xs <- map_M (fun x => do xv <- get_var x; ret (data xv)) inputs_;
  do y <- forward self xs;
  let ys := [y] in
  do outputs_ <- map_M (fun y => new_Variable (as_array (PArr y))) ys;
  do c <- get_config;
  exec (if enable_backprop c then
     do gens <- map_M (fun x => do xv <- get_var x; ret (generation xv)) inputs_;
     do g <- py_max gens;
     exec update_fun self (set_f_generation g);
     exec for_each outputs_ (fun output => set_creator output self);
     update_fun self (set_inputs_outputs inputs_ outputs_)
   else ret tt);
  match outputs_ with
  | [o] => ret o
  | _ => raise IndexError
  end.

(** the constructor of an operation, then its call: [Add()(x0, x1)] *)
Definition new_Function (k : fkind) : M addr :=
  alloc_fun (mkFunction k None None None None None None).

Definition call (k : fkind) (args : list pyval) : M addr :=
  do self <- new_Function k;
  Function_call self args.

(** ** core/Math.py, core/Utils.py, functions/Tensor.py: the functions *)

Definition add (x0 x1 : pyval) : M addr := call Add [x0; as_array x1].
Definition sub (x0 x1 : pyval) : M addr := call Sub [x0; as_array x1].
Definition rsub (x0 x1 : pyval) : M addr := call Sub [as_array x1; x0].
Definition mul (x0 x1 : pyval) : M addr := call Mul [x0; as_array x1].
Definition neg (x : pyval) : M addr := call Neg [x].
Definition pow (x : pyval) (c : Z) : M addr := call (Pow c) [x].
Definition square (x : pyval) : M addr := call Square [x].
Definition get_item (x : pyval) (slices : index) : M addr :=
  call (GetItem slices) [x].

Definition sum_to (x : pyval) (shape : list nat) : M addr :=
  do s <- shape_of x;
  if decide (s = shape) then as_variable x else call (SumTo shape) [x].

Definition broadcast_to (x : pyval) (shape : list nat) : M addr :=
  do s <- shape_of x;
  if decide (s = shape) then as_variable x else call (BroadcastTo shape) [x].

(** The operators that [setup_variable] installs on Variable.  [a * b]
    calls [mul(a, b)] when [a] is a Variable and otherwise the reflected
    [mul(b, a)] of a Variable [b]; in the backward rules one operand is
    always a Variable. *)
Definition py_add (a b : pyval) : M addr :=
  match a, b with
  | PVar _, _ => add a b
  | _, PVar _ => add b a
  | _, _ => raise TypeError
  end.

Definition py_mul (a b : pyval) : M addr :=
  match a, b with
  | PVar _, _ => mul a b
  | _, PVar _ => mul b a
  | _, _ => raise TypeError
  end.

Definition py_neg (a : pyval) : M addr :=
  match a with
  | PVar _ => neg a
  | _ => raise TypeError
  end.

Definition py_pow (a : pyval) (c : Z) : M addr :=
  match a with
  | PVar _ => pow a c
  | _ => raise TypeError
  end.

(** ** The backward rules

    [backward_rule self gys] is [self.backward] applied to [gys], followed by the
    engine's [if not isinstance(gxs, tuple): gxs = (gxs,)]; every rule takes
    one output gradient. *)

(** [x, = self.inputs] *)
Definition unpack1 (f : FunctionObj) : M addr :=
  do ins <- attr (inputs f);
  match ins with
  | [x] => ret x
  | _ => raise ValueError
  end.

(** [x0, x1 = self.inputs] *)
Definition unpack2 (f : FunctionObj) : M (addr * addr) :=
  do ins <- attr (inputs f);
  match ins with
  | [x0; x1] => ret (x0, x1)
  | _ => raise ValueError
  end.

(** the tail shared by the rules of two operands *)
Definition reduce_to_shapes (f : FunctionObj) (gx0 gx1 : pyval)
  : M (list (option addr)) :=
  do s0 <- attr (x0_shape f);
  do s1 <- attr (x1_shape f);
  if decide (s0 ≠ s1) then
    do g0 <- sum_to gx0 s0;
    do g1 <- sum_to gx1 s1;
    ret [Some g0; Some g1]
  else
    match gx0, gx1 with
    | PNone, PNone => ret [None; None]
    | PNone, PVar g1 => ret [None; Some g1]
    | PVar g0, PNone => ret [Some g0; None]
    | PVar g0, PVar g1 => ret [Some g0; Some g1]
    | _, _ => raise TypeError
    end.

Definition backward_rule (self : addr) (gys : list (option addr))
  : M (list (option addr)) :=
  do f <- get_fun self;
  match kind f, gys with
  | Add, [gy] => reduce_to_shapes f (ref gy) (ref gy)
  | Sub, [gy] =>
      do ngy <- py_neg (ref gy);
      reduce_to_shapes f (ref gy) (PVar ngy)
  | Mul, [gy] =>
      do p <- unpack2 f;
      do gx0 <- py_mul (ref gy) (PVar p.2);
      do gx1 <- py_mul (ref gy) (PVar p.1);
      reduce_to_shapes f (PVar gx0) (PVar gx1)
  | Neg, [gy] =>
      do g <- py_neg (ref gy);
      ret [Some g]
  | Pow c, [gy] =>
      do x <- unpack1 f;
      do t <- py_pow (PVar x) (c - 1);
      do u <- py_mul (PInt c) (PVar t);
      do g <- py_mul (PVar u) (ref gy);
      ret [Some g]
  | Square, [gy] =>
      do x <- unpack1 f;
      do t <- py_mul (PInt 2) (PVar x);
      do g <- py_mul (PVar t) (ref gy);
      ret [Some g]
  | GetItem slices, [gy] =>
      do x <- unpack1 f;
      do s <- shape_of (PVar x);
      do _ <- new_Function (GetItemGrad slices s);
      ret [None]
  | GetItemGrad slices in_shape, [ggx] =>
      do g <- get_item (ref ggx) slices;
      ret [Some g]
  | SumTo shape, [gy] =>
      do s <- attr (x_shape f);
      do g <- broadcast_to (ref gy) s;
      ret [Some g]
  | BroadcastTo shape, [gy] =>
      do s <- attr (x_shape f);
      do g <- sum_to (ref gy) s;
      ret [Some g]
  | _, _ => raise TypeError
  end.

(** ** The backward engine: [Variable.backward] *)

(** [funcs.sort(key=lambda x: x.generation)]: the keys are read first (a
    [None] in the list has no [generation]), then the list is sorted, equal
    keys keeping their order. *)
Definition key_generation (f : option addr) : M nat :=
  match f with
  | None => raise AttributeError
  | Some a => do fo <- get_fun a; attr (f_generation fo)
  end.

Fixpoint insert_by_key {A} (p : nat * A) (l : list (nat * A)) : list (nat * A) :=
  match l with
  | [] => [p]
  | q :: l' => if p.1 <? q.1 then p :: q :: l' else q :: insert_by_key p l'
  end.

Definition sort_by_key {A} (l : list (nat * A)) : list (nat * A) :=
  foldl (fun acc p => insert_by_key p acc) [] l.

Definition sort_funcs (funcs : list (option addr)) : M (list (option addr)) :=
  do keys <- map_M key_generation funcs;
  ret ((sort_by_key (zip keys funcs)).*2).

(** the two local variables of [backward]: the work list [funcs] and
    [seen_set], of which only membership is used *)
Definition worklist : Type := list (option addr) * list (option addr).

Definition add_func (st : worklist) (f : option addr) : M worklist :=
  if bool_decide (f ∈ st.2) then ret st
  else
    do funcs <- sort_funcs (st.1 ++ [f]);
    ret (funcs, f :: st.2).

(** the body of [for x, gx in zip(f.inputs, gxs)] *)
Definition accumulate (st : worklist) (p : addr * option addr) : M worklist :=
  do x <- get_var p.1;
  exec match grad x with
  | None => update_var p.1 (set_grad p.2)
  | Some g =>
      do r <- py_add (PVar g) (ref p.2);
      update_var p.1 (set_grad (Some r))
  end;
  do x <- get_var p.1;
  match creator x with
  | Some c => add_func st (Some c)
  | None => ret st
  end.

(** one turn of [while funcs], for the function [f] popped from the list *)
Definition backward_step (retain_grad create_graph : bool)
    (f : option addr) (st : worklist) : M worklist :=
  do fa <- attr f;
  do fo <- get_fun fa;
  do outs <- attr (outputs fo);
  do gys <- map_M (fun y => do yv <- get_var y; ret (grad yv)) outs;
  using_config "enable_backprop" create_graph (
    do gxs <- backward_rule fa gys;
    do fo <- get_fun fa;
    do ins <- attr (inputs fo);
    do st' <- fold_M accumulate (zip ins gxs) st;
    exec (if negb retain_grad then
       do fo <- get_fun fa;
       do outs <- attr (outputs fo);
       for_each outs (fun y => update_var y (set_grad None))
     else ret tt);
    ret st').

Fixpoint backward_loop (fuel : nat) (retain_grad create_graph : bool)
    (st : worklist) : M unit :=
  match last st.1 with
  | None => ret tt
  | Some f =>
      match fuel with
      | 0 => out_of_fuel
      | S fuel' =>
          do st' <- backward_step retain_grad create_graph f (removelast st.1, st.2);
          backward_loop fuel' retain_grad create_graph st'
      end
  end.

(** [np.ones_like(self.data)]; of [None] numpy makes a 0-dimensional one *)
Definition ones_like_data (d : option ndarray) : ndarray :=
  match d with
  | Some a => ones_like a
  | None => array 1
  end.

(** [if self.grad is None: self.grad = Variable(np.ones_like(self.data))] *)
Definition seed_grad (self : addr) : M unit :=
  do x <- get_var self;
  match grad x with
  | None =>
      do g <- new_Variable (PArr (ones_like_data (data x)));
      update_var self (set_grad (Some g))
  | Some _ => ret tt
  end.

(** [Variable.backward].  Each function enters the work list at most once
    and only functions of the store at entry do, hence the bound on the
    number of turns. *)
Definition backward (self : addr) (retain_grad create_graph : bool) : M unit :=
  exec seed_grad self;
  do x <- get_var self;
  do st <- add_func ([], []) (creator x);
  do fs <- (fun s => (Val (funs s), s));
  backward_loop (S (length fs)) retain_grad create_graph st.

(** [Variable.unchain_backward] *)
Definition unchain_input (funcs : list addr) (x : addr) : M (list addr) :=
  do xv <- get_var x;
  match creator xv with
  | Some c => exec unchain x; ret (funcs ++ [c])
  | None => ret funcs
  end.

Fixpoint unchain_loop (fuel : nat) (funcs : list addr) : M unit :=
  match last funcs with
  | None => ret tt
  | Some f =>
      match fuel with
      | 0 => out_of_fuel
      | S fuel' =>
          do fo <- get_fun f;
          do ins <- attr (inputs fo);
          do funcs' <- fold_M unchain_input ins (removelast funcs);
          unchain_loop fuel' funcs'
      end
  end.

(** Each turn pops one function and each push unchains one more Variable,
    hence the bound on the number of turns. *)
Definition unchain_backward (self : addr) : M unit :=
  do x <- get_var self;
  match creator x with
  | Some c =>
      do vs <- (fun s => (Val (vars s), s));
      unchain_loop (S (length vs)) [c]
  | None => ret tt
  end.

(** ** Programs of the claims *)

Definition run {A} (m : M A) : outcome A * store := m empty_store.

(** the grad of a Variable, as data: [x.grad.data] *)
Definition grad_data (s : store) (x : addr) : option ndarray :=
  xv ← vars s !! x;
  g ← grad xv;
  gv ← vars s !! g;
  data gv.



(** the value of a flag of Config, by name *)
Definition flag (name : string) (s : store) : outcome bool :=
  (getattr_Config name s).1.

(** * Configuration scopes *)

Ltac unfold_config :=
  unfold using_config, flag, getattr_Config, setattr_Config, try_finally,
    get_config, set_config, bind, ret, raise.

Lemma using_config_exit {A} name value (body : M A) s o s' :
  using_config name value body s = (o, s') ->
  o <> OutOfFuel ->
  flag name s' = flag name s.
Proof.
  unfold_config. cbn.
  destruct (String.eqb name "enable_backprop") eqn:E1; cbn.
  - destruct (body _) as [[a | e |] s2]; cbn; rewrite ?E1;
      intros [= <- <-] Ho; try congruence; cbn; rewrite ?E1; reflexivity.
  - destruct (String.eqb name "train") eqn:E2; cbn.
    + destruct (body _) as [[a | e |] s2]; cbn; rewrite ?E1, ?E2;
        intros [= <- <-] Ho; try congruence; cbn; rewrite ?E1, ?E2; reflexivity.
    + intros [= <- <-] _. reflexivity.
Qed.

(** inside the scope the body starts with the flag overridden, and what the
    body returns or raises is what the scope returns or raises *)
Lemma using_config_body {A} name value (body : M A) s b :
  flag name s = Val b ->
  exists s1, flag name s1 = Val value /\
    (using_config name value body s).1 = (body s1).1.
Proof.
  unfold_config. cbn.
  destruct (String.eqb name "enable_backprop") eqn:E1; cbn.
  - intros _.
    exists (mkStore (vars s) (funs s) (mkConfig value (train (config s)))).
    split; [cbn; rewrite ?E1; reflexivity|].
    destruct (body _) as [[a | e |] s2]; cbn; rewrite ?E1; reflexivity.
  - destruct (String.eqb name "train") eqn:E2; cbn; [|discriminate].
    intros _.
    exists (mkStore (vars s) (funs s) (mkConfig (enable_backprop (config s)) value)).
    split; [cbn; rewrite ?E1, ?E2; reflexivity|].
    destruct (body _) as [[a | e |] s2]; cbn; rewrite ?E1, ?E2; reflexivity.
Qed.

(** a body that clears [enable_backprop] itself and then raises *)
Definition clear_and_raise : M unit :=
  exec setattr_Config "enable_backprop" false; raise ValueError.

(** C9: when a [using_config] scope ends, by a normal exit or by an
    exception raised in its body, the overridden flag has the value it had
    before the scope was entered, whatever the body did to it.  So for the
    two scopes made from it: after a [no_grad] scope [enable_backprop] is
    what it was before, and after a [test_mode] scope [train] is; the body
    of [no_grad] starts with [enable_backprop] false, that of [test_mode]
    with [train] false, and what the body returns or raises is what the
    scope returns or raises. *)
Theorem using_config_restores_flag :
  forall (A : Type) (body : M A) (s s' : store) (o : outcome A),
    o <> OutOfFuel ->
    (forall name value,
       using_config name value body s = (o, s') ->
       flag name s' = flag name s /\
       (forall b, flag name s = Val b ->
          exists s1, flag name s1 = Val value /\ o = (body s1).1)) /\
    (no_grad body s = (o, s') ->
       enable_backprop (config s') = enable_backprop (config s) /\
       exists s1, enable_backprop (config s1) = false /\ o = (body s1).1) /\
    (test_mode body s = (o, s') ->
       train (config s') = train (config s) /\
       exists s1, train (config s1) = false /\ o = (body s1).1).
Proof.
  intros A body s s' o Ho.
  assert (Hgen : forall name value,
    using_config name value body s = (o, s') ->
    flag name s' = flag name s /\
    (forall b, flag name s = Val b ->
       exists s1, flag name s1 = Val value /\ o = (body s1).1)).
  { intros name value Hrun. split.
    - exact (using_config_exit name value body s o s' Hrun Ho).
    - intros b Hb.
      destruct (using_config_body name value body s b Hb) as (s1 & H1 & H2).
      exists s1. split; [exact H1|]. rewrite Hrun in H2. exact H2. }
  split; [exact Hgen|]. split.
  - intros Hrun. destruct (Hgen _ _ Hrun) as [Hflag Hbody].
    split; [unfold flag, getattr_Config, get_config, bind in Hflag; cbn in Hflag; congruence|].
    destruct (Hbody _ eq_refl) as (s1 & H1 & H2).
    exists s1. split; [|exact H2].
    unfold flag, getattr_Config, get_config, bind in H1; cbn in H1; congruence.
  - intros Hrun. destruct (Hgen _ _ Hrun) as [Hflag Hbody].
    split; [unfold flag, getattr_Config, get_config, bind in Hflag; cbn in Hflag; congruence|].
    destruct (Hbody _ eq_refl) as (s1 & H1 & H2).
    exists s1. split; [|exact H2].
    unfold flag, getattr_Config, get_config, bind in H1; cbn in H1; congruence.
Qed.

(** in a store where [enable_backprop] is true, a body that clears the flag
    and raises leaves it false; inside [no_grad] the exception still leaves
    the scope, and the flag is true again *)
Lemma using_config_restores_flag_witness :
  enable_backprop (config empty_store) = true /\
  enable_backprop (config (clear_and_raise empty_store).2) = false /\
  (no_grad clear_and_raise empty_store).1 = Raise ValueError /\
  enable_backprop (config (no_grad clear_and_raise empty_store).2) = true.
Proof.
  split; [reflexivity|]. split; [reflexivity|]. split; [reflexivity|].
  destruct (using_config_restores_flag unit clear_and_raise empty_store
              (no_grad clear_and_raise empty_store).2
              (no_grad clear_and_raise empty_store).1)
    as (_ & Hno_grad & _); [discriminate|].
  destruct (Hno_grad eq_refl) as [Hflag _]. exact Hflag.
Defined.

(** * The numeric backend: facts used below *)

Section NumpyFacts.

Lemma pad_shape_same (s : list nat) : pad_shape (length s) s = s.
Proof. unfold pad_shape. rewrite Nat.sub_diag. reflexivity. Qed.

Lemma broadcast_dim_same n : broadcast_dim n n = Some n.
Proof. unfold broadcast_dim. rewrite decide_True; done. Qed.

Lemma broadcast_dims_same s : broadcast_dims s s = Some s.
Proof.
  induction s as [|n s IH]; [reflexivity|].
  cbn. rewrite broadcast_dim_same, IH. reflexivity.
Qed.

Lemma broadcast_shapes_same s : broadcast_shapes s s = Some s.
Proof.
  unfold broadcast_shapes. rewrite Nat.max_id, pad_shape_same.
  apply broadcast_dims_same.
Qed.

Lemma concat_chunks_map (f : list Z -> list Z) n k d :
  (forall c, length c = k -> f c = c) ->
  length d = n * k ->
  concat (f <$> chunks n k d) = d.
Proof.
  intros Hf. revert d. induction n as [|n IH]; intros d Hd; cbn in *.
  - destruct d; [reflexivity | discriminate].
  - rewrite Hf by (rewrite length_take; lia).
    rewrite IH by (rewrite length_drop; lia).
    apply take_drop.
Qed.

Lemma bcast_same s : forall d, length d = size_of s -> bcast s s d = d.
Proof.
  induction s as [|n s IH]; intros d Hd; [reflexivity|].
  cbn. rewrite decide_True by done.
  apply concat_chunks_map; [exact IH | exact Hd].
Qed.

Lemma nd_binop_same_shape f a b :
  wf_ndarray a -> wf_ndarray b -> nd_shape a = nd_shape b ->
  nd_binop f a b = Ok (NdArray (nd_shape a) (zip_with f (nd_data a) (nd_data b))).
Proof.
  intros Ha Hb Hs. unfold nd_binop. rewrite <- Hs, broadcast_shapes_same.
  rewrite pad_shape_same, !bcast_same; [reflexivity | |]; congruence.
Qed.

Lemma size_of_replicate_1 n : size_of (replicate n 1) = 1.
Proof. induction n as [|n IH]; [reflexivity|]. cbn. unfold size_of in *. cbn. lia. Qed.

Lemma size_of_cons n s : size_of (n :: s) = n * size_of s.
Proof. reflexivity. Qed.

Lemma concat_replicate_replicate (m k : nat) (c : Z) :
  concat (replicate m (replicate k c)) = replicate (m * k) c.
Proof.
  induction m as [|m IH]; [reflexivity|].
  cbn. rewrite IH, <- replicate_add. reflexivity.
Qed.

(** a 1-element array of all-ones shape broadcast to any shape *)
Lemma bcast_scalar (c : Z) t :
  bcast (replicate (length t) 1) t [c] = replicate (size_of t) c.
Proof.
  induction t as [|m t IH]; [reflexivity|].
  cbn [length replicate bcast]. rewrite size_of_replicate_1.
  cbn [chunks take fmap list_fmap]. rewrite IH. cbn [concat].
  rewrite app_nil_r, size_of_cons.
  destruct (decide (1 = m)) as [<- | Hm].
  - f_equal. lia.
  - apply concat_replicate_replicate.
Qed.

Lemma broadcast_dims_ones_r s :
  broadcast_dims s (replicate (length s) 1) = Some s.
Proof.
  induction s as [|n s IH]; [reflexivity|].
  cbn. rewrite IH. unfold broadcast_dim.
  repeat case_decide; subst; done.
Qed.

Lemma broadcast_shapes_nil_r s : broadcast_shapes s [] = Some s.
Proof.
  unfold broadcast_shapes. cbn [length]. rewrite Nat.max_0_r, pad_shape_same.
  unfold pad_shape. cbn [length]. rewrite Nat.sub_0_r, app_nil_r.
  apply broadcast_dims_ones_r.
Qed.

(** [a op c] for a scalar [c] *)
Lemma nd_binop_scalar_r f a c :
  wf_ndarray a ->
  nd_binop f a (array c) = Ok (nd_map (fun z => f z c) a).
Proof.
  intros Ha. unfold nd_binop, array. cbn [nd_shape nd_data].
  rewrite broadcast_shapes_nil_r, pad_shape_same, bcast_same by exact Ha.
  unfold pad_shape. cbn [length]. rewrite Nat.sub_0_r, app_nil_r, bcast_scalar.
  unfold nd_map. do 2 f_equal.
  apply zip_with_replicate_r_eq. exact Ha.
Qed.

Lemma nd_pow_nonneg a c : (0 <= c)%Z ->
  nd_pow a c = Ok (nd_map (fun z => (z ^ c)%Z) a).
Proof. intros Hc. unfold nd_pow. destruct (Z.ltb_spec c 0); [lia | reflexivity]. Qed.

Lemma zip_with_replicate_both (f : Z -> Z -> Z) n x y :
  zip_with f (replicate n x) (replicate n y) = replicate n (f x y).
Proof. induction n as [|n IH]; [reflexivity|]. cbn. rewrite IH. reflexivity. Qed.

Lemma zip_with_diag (f : Z -> Z -> Z) (l : list Z) :
  zip_with f l l = (fun z => f z z) <$> l.
Proof. induction l as [|z l IH]; [reflexivity|]. cbn. rewrite IH. reflexivity. Qed.


Lemma fmap_ext_Z (f g : Z -> Z) (l : list Z) :
  (forall z, f z = g z) -> f <$> l = g <$> l.
Proof. intros H. induction l as [|z l IH]; [reflexivity|]. cbn. rewrite H, IH. reflexivity. Qed.


Lemma normalize_axes_nat n (l : list nat) :
  NoDup l -> Forall (fun i => i < n) l ->
  normalize_axes n (Z.of_nat <$> l) = Ok l.
Proof.
  induction l as [|a l IH]; intros Hnd Hlt; [reflexivity|].
  apply NoDup_cons in Hnd as [Hnotin Hnd]. apply Forall_cons in Hlt as [Ha Hlt].
  cbn. rewrite IH by assumption.
  unfold normalize_axis.
  destruct (Z.leb_spec (- Z.of_nat n) (Z.of_nat a)); [|lia].
  destruct (Z.ltb_spec (Z.of_nat a) (Z.of_nat n)); [|lia].
  cbn. rewrite Z.mod_small by lia. rewrite Nat2Z.id.
  rewrite bool_decide_eq_false_2 by assumption. reflexivity.
Qed.

(** the axes of size 1 of [shape], counted from [a] and shifted by [lead] *)
Definition unit_axes (lead a : nat) (shape : list nat) : list nat :=
  omap (fun p : nat * nat => if decide (p.2 = 1) then Some (p.1 + lead) else None)
       (zip (seq a (length shape)) shape).

Lemma elem_of_unit_axes lead a shape i :
  i ∈ unit_axes lead a shape <->
  exists j, i = a + j + lead /\ shape !! j = Some 1.
Proof.
  unfold unit_axes. rewrite list_elem_of_omap. split.
  - intros ([j d] & Hin & Hsome).
    apply list_elem_of_lookup in Hin as [k Hk].
    apply lookup_zip_Some in Hk as [Ha Hb].
    apply lookup_seq in Ha as [-> _].
    cbn in Hsome. destruct (decide (d = 1)) as [-> | ]; [|discriminate].
    injection Hsome as <-. eauto.
  - intros (j & -> & Hj).
    exists (a + j, 1). split; [|reflexivity].
    apply list_elem_of_lookup. exists j.
    apply lookup_zip_Some. split; [|exact Hj]. apply lookup_seq.
    split; [reflexivity|]. apply lookup_lt_Some in Hj. exact Hj.
Qed.

Lemma unit_axes_cons lead a d shape :
  unit_axes lead a (d :: shape)
  = (if decide (d = 1) then [a + lead] else []) ++ unit_axes lead (S a) shape.
Proof. unfold unit_axes. cbn. destruct (decide (d = 1)); reflexivity. Qed.

Lemma NoDup_unit_axes lead shape : forall a, NoDup (unit_axes lead a shape).
Proof.
  induction shape as [|d shape IH]; intros a; [constructor|].
  rewrite unit_axes_cons. destruct (decide (d = 1)); [|apply IH].
  cbn [app]. apply NoDup_cons. split; [|apply IH].
  intros Hin. apply (elem_of_unit_axes lead (S a) shape) in Hin as (j & Hj & _). lia.
Qed.

Definition sum_to_axes (lead : nat) (shape : list nat) : list nat :=
  seq 0 lead ++ unit_axes lead 0 shape.

Lemma NoDup_sum_to_axes lead shape : NoDup (sum_to_axes lead shape).
Proof.
  apply NoDup_app. split; [apply NoDup_seq|]. split; [|apply NoDup_unit_axes].
  intros i Hi Hin. apply elem_of_seq in Hi.
  apply elem_of_unit_axes in Hin as (j & Hj & _). lia.
Qed.

Lemma sum_to_axes_lt lead shape :
  Forall (fun i => i < lead + length shape) (sum_to_axes lead shape).
Proof.
  apply Forall_forall. intros i Hi. apply elem_of_app in Hi as [Hi | Hi].
  - apply elem_of_seq in Hi. lia.
  - apply elem_of_unit_axes in Hi as (j & -> & Hj). apply lookup_lt_Some in Hj. lia.
Qed.

Definition unit_mask (s : list nat) : list bool :=
  (fun d => bool_decide (d = 1)) <$> s.

Lemma axes_mask_sum_to lead shape :
  axes_mask (lead + length shape) (sum_to_axes lead shape)
  = unit_mask (replicate lead 1 ++ shape).
Proof.
  unfold axes_mask, unit_mask. apply list_eq. intros i.
  rewrite !list_lookup_fmap.
  destruct (decide (i < lead + length shape)) as [Hi | Hi].
  2: { rewrite lookup_seq_ge by lia.
       rewrite (lookup_ge_None_2 (replicate lead 1 ++ shape))
         by (rewrite length_app, length_replicate; lia). reflexivity. }
  rewrite lookup_seq_lt by lia. cbn [fmap option_fmap option_map Nat.add].
  destruct (decide (i < lead)) as [Hl | Hl].
  - rewrite lookup_app_l by (rewrite length_replicate; lia).
    rewrite lookup_replicate_2 by lia. cbn. f_equal.
    rewrite !bool_decide_eq_true_2; [reflexivity | reflexivity |].
    apply elem_of_app. left. apply elem_of_seq. lia.
  - rewrite lookup_app_r by (rewrite length_replicate; lia).
    rewrite length_replicate.
    destruct (shape !! (i - lead)) as [d|] eqn:Hd.
    2: { apply lookup_ge_None in Hd. lia. }
    cbn. f_equal. apply bool_decide_ext. split.
    + intros Hin. apply elem_of_app in Hin as [Hin | Hin].
      * apply elem_of_seq in Hin. lia.
      * apply elem_of_unit_axes in Hin as (j & Hj & Hj1).
        replace (i - lead) with j in Hd by lia. congruence.
    + intros ->. apply elem_of_app. right. apply elem_of_unit_axes.
      exists (i - lead). split; [lia | exact Hd].
Qed.

(** every dimension of [s] is that of [t], or is 1 *)
Definition fits (s t : list nat) : Prop :=
  Forall2 (fun n m => n = m \/ n = 1) s t.

Lemma keepdims_shape_fits s t : fits s t -> keepdims_shape t (unit_mask s) = s.
Proof.
  induction 1 as [|n m s t Hnm _ IH]; [reflexivity|].
  unfold keepdims_shape, unit_mask in *. cbn. rewrite IH. f_equal.
  case_bool_decide; lia.
Qed.

Lemma range_of_nat n : range (Z.of_nat n) = Z.of_nat <$> seq 0 n.
Proof. unfold range. rewrite Nat2Z.id. reflexivity. Qed.

Lemma unit_axes_Z (lead a : nat) shape :
  omap (fun p : nat * nat =>
          if decide (p.2 = 1) then Some (Z.of_nat p.1 + Z.of_nat lead)%Z else None)
       (zip (seq a (length shape)) shape)
  = Z.of_nat <$> unit_axes lead a shape.
Proof.
  revert a. induction shape as [|d shape IH]; intros a; [reflexivity|].
  rewrite unit_axes_cons. cbn. rewrite IH.
  destruct (decide (d = 1)); cbn; [|reflexivity].
  f_equal. lia.
Qed.

Lemma sum_keepdims_sum_to x (lead : nat) shape :
  ndim x = lead + length shape ->
  fits (replicate lead 1 ++ shape) (nd_shape x) ->
  sum_keepdims (Z.of_nat <$> sum_to_axes lead shape) x
  = Ok (NdArray (replicate lead 1 ++ shape)
          (sum_axes (nd_shape x) (unit_mask (replicate lead 1 ++ shape)) (nd_data x))).
Proof.
  intros Hn Hfit. unfold sum_keepdims. rewrite Hn.
  rewrite normalize_axes_nat
    by (apply NoDup_sum_to_axes || apply sum_to_axes_lt).
  rewrite axes_mask_sum_to, keepdims_shape_fits by exact Hfit. reflexivity.
Qed.

Lemma filter_all {A} (P : A -> Prop) `{forall x, Decision (P x)} (l : list A) :
  Forall P l -> filter P l = l.
Proof.
  induction 1 as [|x l Hx _ IH]; [reflexivity|].
  rewrite filter_cons_True by exact Hx. rewrite IH. reflexivity.
Qed.

Lemma filter_none {A} (P : A -> Prop) `{forall x, Decision (P x)} (l : list A) :
  Forall (fun x => ~ P x) l -> filter P l = [].
Proof.
  induction 1 as [|x l Hx _ IH]; [reflexivity|].
  rewrite filter_cons_False by exact Hx. exact IH.
Qed.

Lemma squeeze_lead (lead : nat) shape d :
  squeeze (Z.of_nat <$> seq 0 lead) (NdArray (replicate lead 1 ++ shape) d)
  = Ok (NdArray shape d).
Proof.
  unfold squeeze, ndim. cbn [nd_shape nd_data].
  rewrite length_app, length_replicate.
  rewrite normalize_axes_nat
    by (apply NoDup_seq || (apply Forall_forall; intros i Hi; apply elem_of_seq in Hi; lia)).
  rewrite seq_app. cbn [Nat.add].
  rewrite zip_with_app by (rewrite length_seq, length_replicate; reflexivity).
  rewrite forallb_app.
  assert (H1 : forallb (fun p : nat * nat =>
                 negb (bool_decide (p.1 ∈ seq 0 lead)) || bool_decide (p.2 = 1))
                 (zip (seq 0 lead) (replicate lead 1)) = true).
  { apply forallb_forall. intros [i n] Hin. apply list_elem_of_In in Hin.
    apply elem_of_zip_r in Hin. apply elem_of_replicate in Hin as [-> _].
    cbn. rewrite (bool_decide_eq_true_2 (1 = 1)) by reflexivity. apply orb_true_r. }
  assert (H2 : forallb (fun p : nat * nat =>
                 negb (bool_decide (p.1 ∈ seq 0 lead)) || bool_decide (p.2 = 1))
                 (zip (seq lead (length shape)) shape) = true).
  { apply forallb_forall. intros [i n] Hin. apply list_elem_of_In in Hin.
    apply elem_of_zip_l in Hin. apply elem_of_seq in Hin.
    cbn. rewrite bool_decide_eq_false_2; [reflexivity|].
    rewrite elem_of_seq. lia. }
  rewrite H1, H2. cbn [andb].
  rewrite filter_app, fmap_app.
  rewrite filter_none, filter_all.
  - cbn [fmap list_fmap app]. rewrite snd_zip by (rewrite length_seq; lia). reflexivity.
  - apply Forall_forall. intros [i n] Hin. apply elem_of_zip_l in Hin.
    apply elem_of_seq in Hin. cbn. rewrite elem_of_seq. lia.
  - apply Forall_forall. intros [i n] Hin. apply elem_of_zip_l in Hin.
    apply elem_of_seq in Hin. cbn. intros Hn. apply Hn. apply elem_of_seq. lia.
Qed.

(** [sum_to] on a gradient whose shape [shape] broadcasts to: the result has
    shape [shape], and holds the sums over the leading axes and over the axes
    where [shape] is 1 *)
Lemma sum_to_fits x shape :
  length shape <= ndim x ->
  fits (pad_shape (ndim x) shape) (nd_shape x) ->
  Numpy.sum_to x shape
  = Ok (NdArray shape
          (sum_axes (nd_shape x) (unit_mask (pad_shape (ndim x) shape)) (nd_data x))).
Proof.
  intros Hle Hfit. unfold Numpy.sum_to.
  set (lead := ndim x - length shape).
  assert (Hn : ndim x = lead + length shape) by (unfold lead; lia).
  replace (Z.of_nat (ndim x) - Z.of_nat (length shape))%Z with (Z.of_nat lead) by lia.
  rewrite range_of_nat, unit_axes_Z, <- fmap_app.
  change (seq 0 lead ++ unit_axes lead 0 shape) with (sum_to_axes lead shape).
  unfold pad_shape in *. fold lead in Hfit. fold lead.
  rewrite sum_keepdims_sum_to by assumption.
  cbn [mbind res_mbind res_bind].
  destruct (Z.ltb_spec 0 (Z.of_nat lead)) as [Hpos | Hz].
  - apply squeeze_lead.
  - assert (lead = 0) as -> by lia. reflexivity.
Qed.

Lemma length_pad_shape n s : length s <= n -> length (pad_shape n s) = n.
Proof. intros H. unfold pad_shape. rewrite length_app, length_replicate. lia. Qed.

Lemma broadcast_dim_Some n m d :
  broadcast_dim n m = Some d -> (n = d \/ n = 1) /\ (m = d \/ m = 1).
Proof. unfold broadcast_dim. repeat case_decide; intros [= <-]; lia. Qed.

Lemma broadcast_dims_fits a b s :
  length a = length b ->
  broadcast_dims a b = Some s ->
  fits a s /\ fits b s.
Proof.
  revert b s. induction a as [|n a IH]; intros [|m b] s Hlen; try discriminate.
  - intros [= <-]. split; constructor.
  - cbn. destruct (broadcast_dim n m) as [d|] eqn:Hd; [|discriminate].
    destruct (broadcast_dims a b) as [r|] eqn:Hr; [|discriminate].
    intros [= <-]. apply broadcast_dim_Some in Hd as [Hn Hm].
    destruct (IH b r) as [Ha Hb]; [cbn in Hlen; lia | exact Hr |].
    split; constructor; assumption.
Qed.

(** what [np.broadcast_shapes] returns is a shape both operands fit into *)
Lemma broadcast_shapes_fits s0 s1 s :
  broadcast_shapes s0 s1 = Some s ->
  length s = length s0 `max` length s1 /\
  fits (pad_shape (length s) s0) s /\ fits (pad_shape (length s) s1) s.
Proof.
  unfold broadcast_shapes. intros H.
  apply broadcast_dims_fits in H as [H0 H1];
    [|rewrite !length_pad_shape; lia].
  assert (Hlen : length s = length s0 `max` length s1).
  { apply Forall2_length in H0. rewrite length_pad_shape in H0; lia. }
  rewrite Hlen. auto.
Qed.

Lemma nd_binop_broadcast f a b s :
  broadcast_shapes (nd_shape a) (nd_shape b) = Some s ->
  nd_binop f a b
  = Ok (NdArray s (zip_with f
                     (bcast (pad_shape (length s) (nd_shape a)) s (nd_data a))
                     (bcast (pad_shape (length s) (nd_shape b)) s (nd_data b)))).
Proof. intros H. unfold nd_binop. rewrite H. reflexivity. Qed.

(** *** sums of constant arrays *)

Lemma chunks_replicate n k (c : Z) :
  chunks n k (replicate (n * k) c) = replicate n (replicate k c).
Proof.
  induction n as [|n IH]; [reflexivity|].
  cbn [chunks replicate]. replace (S n * k) with (k + n * k) by lia.
  rewrite replicate_add, take_app_length', drop_app_length'
    by (rewrite length_replicate; reflexivity).
  rewrite IH. reflexivity.
Qed.

Lemma sum_rows_replicate k n (v : Z) :
  sum_rows k (replicate n (replicate k v)) = replicate k (Z.of_nat n * v)%Z.
Proof.
  unfold sum_rows. induction n as [|n IH].
  - cbn. f_equal.
  - cbn [replicate foldr]. rewrite IH, zip_with_replicate_both. f_equal. lia.
Qed.

(** how many elements of the broadcast shape [t] one element of [s] covers *)
Definition coverage (s t : list nat) : nat :=
  size_of (zip_with (fun n m => if decide (n = 1) then m else 1) s t).

Lemma sum_axes_cons n s b mask d :
  sum_axes (n :: s) (b :: mask) d
  = if b
    then sum_rows (size_of (keepdims_shape s mask))
                  (sum_axes s mask <$> chunks n (size_of s) d)
    else concat (sum_axes s mask <$> chunks n (size_of s) d).
Proof. reflexivity. Qed.

Lemma unit_mask_cons n s : unit_mask (n :: s) = bool_decide (n = 1) :: unit_mask s.
Proof. reflexivity. Qed.

Lemma coverage_cons n m s t :
  coverage (n :: s) (m :: t) = (if decide (n = 1) then m else 1) * coverage s t.
Proof. reflexivity. Qed.

Lemma sum_axes_const s t (c : Z) :
  fits s t ->
  sum_axes t (unit_mask s) (replicate (size_of t) c)
  = replicate (size_of s) (Z.of_nat (coverage s t) * c)%Z.
Proof.
  induction 1 as [|n m s t Hnm Hfit IH].
  - cbn. f_equal. unfold coverage. cbn. lia.
  - rewrite unit_mask_cons, sum_axes_cons, coverage_cons, !size_of_cons.
    rewrite chunks_replicate, fmap_replicate, IH.
    rewrite keepdims_shape_fits by assumption.
    case_bool_decide as Hn.
    + subst n. rewrite decide_True by reflexivity.
      rewrite sum_rows_replicate. rewrite Nat.mul_1_l. f_equal. lia.
    + rewrite decide_False by exact Hn. destruct Hnm as [-> | ?]; [|lia].
      rewrite concat_replicate_replicate. f_equal. lia.
Qed.

(** the axes along which [s] is stretched to reach [t] *)
Definition stretched_mask (s t : list nat) : list bool :=
  zip_with (fun n m => bool_decide (n <> m)) s t.

Lemma stretched_mask_cons n m s t :
  stretched_mask (n :: s) (m :: t) = bool_decide (n <> m) :: stretched_mask s t.
Proof. reflexivity. Qed.

Lemma keepdims_shape_stretched s t :
  fits s t -> keepdims_shape t (stretched_mask s t) = s.
Proof.
  induction 1 as [|n m s t Hnm _ IH]; [reflexivity|].
  unfold keepdims_shape, stretched_mask in *. cbn. rewrite IH. f_equal.
  case_bool_decide; lia.
Qed.

Lemma chunks_lengths n k d :
  length d = n * k -> Forall (fun c => length c = k) (chunks n k d).
Proof.
  revert d. induction n as [|n IH]; intros d Hd; cbn; constructor.
  - rewrite length_take. lia.
  - apply IH. rewrite length_drop. lia.
Qed.

Lemma length_chunks n k d : length (chunks n k d) = n.
Proof. revert d. induction n as [|n IH]; intros d; cbn; [|rewrite IH]; reflexivity. Qed.

Lemma length_sum_rows k rows :
  Forall (fun r => length r = k) rows -> length (sum_rows k rows) = k.
Proof.
  unfold sum_rows. induction 1 as [|r rows Hr _ IH]; cbn.
  - apply length_replicate.
  - rewrite length_zip_with, IH, Hr. lia.
Qed.

Lemma length_concat_uniform (k : nat) (rows : list (list Z)) :
  Forall (fun r => length r = k) rows -> length (concat rows) = length rows * k.
Proof.
  induction 1 as [|r rows Hr _ IH]; [reflexivity|].
  cbn. rewrite length_app, IH, Hr. reflexivity.
Qed.

Lemma length_sum_axes t : forall mask d,
  length mask = length t -> length d = size_of t ->
  length (sum_axes t mask d) = size_of (keepdims_shape t mask).
Proof.
  induction t as [|m t IH]; intros [|b mask] d Hm Hd; try discriminate.
  - exact Hd.
  - rewrite sum_axes_cons. rewrite size_of_cons in Hd.
    assert (Hrows : Forall (fun r => length r = size_of (keepdims_shape t mask))
                      (sum_axes t mask <$> chunks m (size_of t) d)).
    { apply Forall_fmap. eapply Forall_impl; [apply chunks_lengths, Hd|].
      intros c Hc. cbn. apply IH; [cbn in Hm; lia | exact Hc]. }
    change (keepdims_shape (m :: t) (b :: mask))
      with ((if b then 1 else m) :: keepdims_shape t mask).
    rewrite size_of_cons. destruct b.
    + rewrite length_sum_rows by exact Hrows. lia.
    + rewrite (length_concat_uniform _ _ Hrows), length_fmap, length_chunks. reflexivity.
Qed.

Lemma sum_rows_single k (r : list Z) : length r = k -> sum_rows k [r] = r.
Proof.
  intros Hr. unfold sum_rows. cbn.
  rewrite zip_with_replicate_r_eq by exact Hr.
  rewrite <- (list_fmap_id r) at 2. apply list_fmap_ext. intros _ z _. cbn. lia.
Qed.

Lemma length_unit_mask s : length (unit_mask s) = length s.
Proof. unfold unit_mask. apply length_fmap. Qed.

(** summing over an axis of size 1 changes nothing: the axes where the
    shape is 1 and the axes that were stretched give the same sums *)
Lemma sum_axes_unit_stretched s t :
  fits s t -> forall d, length d = size_of t ->
  sum_axes t (unit_mask s) d = sum_axes t (stretched_mask s t) d.
Proof.
  induction 1 as [|n m s t Hnm Hfit IH]; intros d Hd; [reflexivity|].
  rewrite unit_mask_cons, stretched_mask_cons, !sum_axes_cons.
  rewrite size_of_cons in Hd.
  rewrite keepdims_shape_fits, keepdims_shape_stretched by assumption.
  assert (Hmap : sum_axes t (unit_mask s) <$> chunks m (size_of t) d
               = sum_axes t (stretched_mask s t) <$> chunks m (size_of t) d).
  { apply list_fmap_ext. intros i c Hc. apply IH.
    pose proof (chunks_lengths m (size_of t) d Hd) as Hall.
    rewrite Forall_lookup in Hall. exact (Hall i c Hc). }
  rewrite Hmap.
  case_bool_decide as H1; case_bool_decide as H2; try reflexivity; try lia.
  subst n. assert (m = 1) as -> by lia.
  cbn [chunks fmap list_fmap concat]. rewrite app_nil_r.
  apply sum_rows_single.
  rewrite <- IH by (rewrite length_take; lia).
  rewrite length_sum_axes, keepdims_shape_fits;
    [reflexivity | assumption | | rewrite length_take; lia].
  rewrite length_unit_mask. apply Forall2_length in Hfit. exact Hfit.
Qed.

(** no axis summed *)
Lemma stretched_mask_same s : stretched_mask s s = replicate (length s) false.
Proof.
  induction s as [|n s IH]; [reflexivity|].
  rewrite stretched_mask_cons, IH. cbn. rewrite bool_decide_eq_false_2 by tauto.
  reflexivity.
Qed.

Lemma sum_axes_none t : forall d, length d = size_of t ->
  sum_axes t (replicate (length t) false) d = d.
Proof.
  induction t as [|m t IH]; intros d Hd; [reflexivity|].
  cbn [length replicate]. rewrite sum_axes_cons.
  apply concat_chunks_map; [exact IH | exact Hd].
Qed.

Lemma fits_refl s : fits s s.
Proof. induction s; constructor; auto. Qed.

Lemma fits_pad_nil s : fits (pad_shape (length s) []) s.
Proof.
  unfold pad_shape. cbn [length]. rewrite Nat.sub_0_r, app_nil_r.
  induction s; constructor; auto.
Qed.

End NumpyFacts.

Definition add_same (x_data : ndarray) : M addr :=
  do x <- new_Variable (PArr x_data);
  do y <- add (PVar x) (PVar x);
  exec backward y false false;
  ret x.

(** * Evaluating programs

    The operations are kept folded; the one applied to the current store is
    unfolded, evaluated on its own and replaced by its result. *)

Arguments bind {A B} m k s /.
Arguments ret {A} a s /.
Arguments raise {A} e s /.
Arguments nd_binop : simpl never.
Arguments nd_pow : simpl never.
Arguments size_of : simpl never.
Arguments Numpy.sum_to : simpl never.
Arguments Numpy.broadcast_to : simpl never.
Arguments getitem : simpl never.
Arguments add_at : simpl never.
Arguments add : simpl never.
Arguments sub : simpl never.
Arguments rsub : simpl never.
Arguments mul : simpl never.
Arguments neg : simpl never.
Arguments pow : simpl never.
Arguments square : simpl never.
Arguments get_item : simpl never.
Arguments sum_to : simpl never.
Arguments broadcast_to : simpl never.
Arguments py_add : simpl never.
Arguments py_mul : simpl never.
Arguments py_neg : simpl never.
Arguments py_pow : simpl never.
Arguments call : simpl never.
Arguments Function_call : simpl never.
Arguments forward : simpl never.
Arguments forward2 : simpl never.
Arguments backward_rule : simpl never.
Arguments reduce_to_shapes : simpl never.
Arguments backward : simpl never.
Arguments backward_step : simpl never.
Arguments using_config : simpl never.
Arguments seed_grad : simpl never.
Arguments accumulate : simpl never.
Arguments add_func : simpl never.
Arguments sort_funcs : simpl never.
Arguments unchain_backward : simpl never.
Arguments unchain_input : simpl never.

Ltac head_of t :=
  lazymatch t with
  | ?f _ => head_of f
  | _ => t
  end.

Ltac np_side :=
  first
    [ solve [apply fits_pad_nil]
    | unfold wf_ndarray, nd_map, ndim in *; cbn;
      repeat rewrite ?length_zip_with, ?length_fmap, ?length_replicate;
      first [ assumption | reflexivity | lia | congruence ] ].

Ltac np_rewrite :=
  unfold nd_add, nd_sub, nd_mul;
  first
    [ rewrite nd_binop_same_shape by np_side
    | rewrite nd_binop_scalar_r by np_side
    | rewrite nd_pow_nonneg by lia ].

Ltac decide_closed :=
  match goal with
  | |- context [bool_decide ?P] =>
      let b := eval vm_compute in (bool_decide P) in
      lazymatch b with
      | true => idtac
      | false => idtac
      end;
      change (bool_decide P) with b
  | |- context [decide (?a <> ?a)] =>
      rewrite (decide_False (P := a <> a)) by (intros Hne; apply Hne; reflexivity)
  | |- context [decide (?a = ?a)] =>
      rewrite (decide_True (P := a = a)) by reflexivity
  | |- context [decide (?a = ?b)] =>
      first [ rewrite (decide_True (P := a = b)) by np_side
            | rewrite (decide_False (P := a = b)) by np_side ]
  | |- context [decide (?a <> ?b)] =>
      first [ rewrite (decide_True (P := a <> b)) by np_side
            | rewrite (decide_False (P := a <> b)) by (intros Hne; apply Hne; np_side) ]
  end.

Ltac eval_M :=
  cbn;
  repeat first
    [ progress np_rewrite; cbn
    | progress change (size_of []) with 1; cbn
    | decide_closed; cbn
    | match goal with
      | |- context [?m (mkStore ?v ?f ?c)] =>
          let h := head_of m in
          lazymatch h with
          | @pair => fail
          | _ => idtac
          end;
          lazymatch type of (m (mkStore v f c)) with
          | (outcome _ * store)%type => idtac
          end;
          let H := fresh "Hop" in
          eassert (H : m (mkStore v f c) = _);
          [ unfold h; eval_M; reflexivity
          | rewrite H; clear H; cbn ]
      end ].

(** C10: the same Variable in both input slots of one [Add]: each slot is
    accumulated in turn, and [add(x, x).backward()] leaves
    [x.grad.data = 2 * ones_like(x.data)]. *)
Theorem add_same_variable_accumulates :
  forall x_data : ndarray,
    wf_ndarray x_data ->
    exists s,
      run (add_same x_data) = (Val 0, s) /\
      grad_data s 0 = Some (nd_map (Z.mul 2) (ones_like x_data)).
Proof.
  intros x_data Hwf. unfold run, add_same, empty_store. eexists. split.
  - eval_M. reflexivity.
  - cbn. unfold nd_map, ones_like, full. cbn.
    rewrite zip_with_replicate_both, fmap_replicate. reflexivity.
Qed.

Lemma add_same_variable_accumulates_witness :
  exists s,
    run (add_same (NdArray [2] [5; 7]%Z)) = (Val 0, s) /\
    grad_data s 0 = Some (NdArray [2] [2; 2]%Z).
Proof.
  apply (add_same_variable_accumulates (NdArray [2] [5; 7]%Z)). reflexivity.
Defined.

Definition diamond (a_data : ndarray) : M (addr * addr * addr * addr) :=
  do a <- new_Variable (PArr a_data);
  do b <- square (PVar a);
  do c <- square (PVar a);
  do d <- add (PVar b) (PVar c);
  exec backward d false false;
  ret (a, b, c, d).

(** C1: in the diamond [b = square(a)], [c = square(a)], [d = add(b, c)]
    the two gradients that reach [a] are added: after [d.backward()],
    [a.grad.data = 4 * a.data]. *)
Theorem diamond_gradients_accumulate :
  forall a_data : ndarray,
    wf_ndarray a_data ->
    exists s,
      run (diamond a_data) = (Val (0, 1, 2, 3), s) /\
      grad_data s 0 = Some (nd_map (Z.mul 4) a_data).
Proof.
  intros a_data Hwf. unfold run, diamond, empty_store. eexists. split.
  - eval_M. reflexivity.
  - cbn. unfold nd_map. do 2 f_equal.
    rewrite zip_with_diag, zip_with_replicate_r_eq
      by (rewrite length_fmap; exact Hwf).
    rewrite <- !list_fmap_compose. apply fmap_ext_Z. intros z. cbn. lia.
Qed.

Lemma diamond_gradients_accumulate_witness :
  exists s,
    run (diamond (NdArray [2] [3; 5]%Z)) = (Val (0, 1, 2, 3), s) /\
    grad_data s 0 = Some (NdArray [2] [12; 20]%Z).
Proof.
  apply (diamond_gradients_accumulate (NdArray [2] [3; 5]%Z)). reflexivity.
Defined.

Definition add_backward (x_data y_data : ndarray) : M (addr * addr) :=
  do x <- new_Variable (PArr x_data);
  do y <- new_Variable (PArr y_data);
  do z <- add (PVar x) (PVar y);
  exec backward z false false;
  ret (x, y).

(** Modelled from the spec: "the elementwise gradient summed over the
    broadcast axes", for an operand of shape [shape] whose gradient [gy] has
    the broadcast shape: the axes along which the operand was stretched are
    summed, and the result has the operand's shape. *)
Definition sum_over_broadcast_axes (gy : ndarray) (shape : list nat) : ndarray :=
  NdArray shape
    (sum_axes (nd_shape gy)
       (stretched_mask (pad_shape (ndim gy) shape) (nd_shape gy))
       (nd_data gy)).

Ltac np_rewrite ::=
  unfold nd_add, nd_sub, nd_mul;
  first
    [ rewrite nd_binop_same_shape by np_side
    | rewrite nd_binop_scalar_r by np_side
    | rewrite nd_pow_nonneg by lia
    | erewrite nd_binop_broadcast by eassumption
    | rewrite sum_to_fits by np_side ].

Lemma sum_over_broadcast_axes_unit s sh c :
  fits (pad_shape (length s) sh) s ->
  sum_over_broadcast_axes (full s c) sh
  = NdArray sh (sum_axes s (unit_mask (pad_shape (length s) sh))
                         (replicate (size_of s) c)).
Proof.
  intros Hfit. unfold sum_over_broadcast_axes, full, ndim. cbn [nd_shape nd_data].
  rewrite <- sum_axes_unit_stretched;
    [reflexivity | exact Hfit | apply length_replicate].
Qed.

Lemma sum_over_broadcast_axes_same s c :
  sum_over_broadcast_axes (full s c) s = full s c.
Proof.
  unfold sum_over_broadcast_axes, full, ndim. cbn [nd_shape nd_data].
  rewrite pad_shape_same, stretched_mask_same, sum_axes_none;
    [reflexivity | apply length_replicate].
Qed.

(** the sums in closed form: every element of the gradient counts the
    positions of the result that its element of the operand was copied to *)
Lemma sum_over_broadcast_axes_ones s sh :
  fits (pad_shape (length s) sh) s ->
  sum_over_broadcast_axes (full s 1) sh
  = NdArray sh (replicate (size_of (pad_shape (length s) sh))
                          (Z.of_nat (coverage (pad_shape (length s) sh) s))).
Proof.
  intros Hfit. rewrite sum_over_broadcast_axes_unit by exact Hfit.
  rewrite sum_axes_const by exact Hfit. do 2 f_equal. lia.
Qed.

(** C3: [add(x, y).backward()].  Each operand's gradient has the operand's
    shape and holds the gradient of the result (ones) summed over the axes
    along which the operand was broadcast; for equal shapes both gradients
    are [ones_like(x.data)]. *)
Theorem add_gradients_broadcast :
  forall (x_data y_data : ndarray) (s : list nat),
    wf_ndarray x_data -> wf_ndarray y_data ->
    broadcast_shapes (nd_shape x_data) (nd_shape y_data) = Some s ->
    exists st,
      run (add_backward x_data y_data) = (Val (0, 1), st) /\
      grad_data st 0 = Some (sum_over_broadcast_axes (full s 1) (nd_shape x_data)) /\
      grad_data st 1 = Some (sum_over_broadcast_axes (full s 1) (nd_shape y_data)) /\
      (nd_shape x_data = nd_shape y_data ->
         grad_data st 0 = Some (ones_like x_data) /\
         grad_data st 1 = Some (ones_like x_data)).
Proof.
  intros x_data y_data s Hx Hy Hbs.
  destruct (broadcast_shapes_fits _ _ _ Hbs) as (Hlen & Hfx & Hfy).
  assert (Hlx : length (nd_shape x_data) <= length s) by lia.
  assert (Hly : length (nd_shape y_data) <= length s) by lia.
  unfold run, add_backward, empty_store.
  destruct (decide (nd_shape x_data = nd_shape y_data)) as [Heq | Hne].
  - assert (s = nd_shape x_data) as ->.
    { rewrite <- Heq, broadcast_shapes_same in Hbs. congruence. }
    eexists. split; [eval_M; reflexivity|].
    rewrite <- Heq, sum_over_broadcast_axes_same. cbn. auto.
  - destruct (decide (s = nd_shape x_data)) as [Hsx | Hsx];
    destruct (decide (s = nd_shape y_data)) as [Hsy | Hsy]; try congruence.
    + subst s. eexists. split; [eval_M; reflexivity|].
      rewrite (sum_over_broadcast_axes_unit _ (nd_shape y_data)) by exact Hfy.
      rewrite sum_over_broadcast_axes_same.
      cbn. repeat split; try reflexivity; intros; congruence.
    + subst s. eexists. split; [eval_M; reflexivity|].
      rewrite (sum_over_broadcast_axes_unit _ (nd_shape x_data)) by exact Hfx.
      rewrite sum_over_broadcast_axes_same.
      cbn. repeat split; try reflexivity; intros; congruence.
    + eexists. split; [eval_M; reflexivity|].
      rewrite (sum_over_broadcast_axes_unit s (nd_shape x_data)) by exact Hfx.
      rewrite (sum_over_broadcast_axes_unit s (nd_shape y_data)) by exact Hfy.
      cbn. repeat split; try reflexivity; intros; congruence.
Qed.

Lemma add_gradients_broadcast_witness :
  exists st,
    run (add_backward (NdArray [2; 3] [1; 2; 3; 4; 5; 6]%Z)
                      (NdArray [3] [10; 20; 30]%Z)) = (Val (0, 1), st) /\
    grad_data st 0 = Some (NdArray [2; 3] [1; 1; 1; 1; 1; 1]%Z) /\
    grad_data st 1 = Some (NdArray [3] [2; 2; 2]%Z).
Proof.
  destruct (add_gradients_broadcast
              (NdArray [2; 3] [1; 2; 3; 4; 5; 6]%Z) (NdArray [3] [10; 20; 30]%Z)
              [2; 3] eq_refl eq_refl eq_refl) as (st & Hrun & Hg0 & Hg1 & _).
  exists st. repeat split; assumption.
Defined.








